(** * Trasposa: pitch and speed modifier for audio files

    A shallow embedding of [trasposa.py] and the properties of its
    normalizer and of its processing pipeline.

    Modelling conventions.
    - A mono signal (the 1-D array returned by [librosa.load]) is a
      [list R] in the pipeline: there [normalize_audio] computes with
      exact reals.  The numeric guarantees of the normalizer are stated
      on [normalize_audio_f32], which keeps the finite range of the floats
      ([OverflowError], infinities, not-a-number, underflow to zero) and
      leaves out only the rounding of results within range; within range
      the two agree ([normalize_audio_f32_exact]).
    - A Python exception is a [Raise] result; [np.max] of an empty array
      raises [ValueError], as NumPy does for a reduction with no identity.
    - [librosa], [soundfile] and [sounddevice] are third-party libraries:
      they are the fields of a [Backend], and every call to them is
      recorded, in order, in a trace of events.  An exception keeps the
      events emitted before it. *)

From Stdlib Require Import Ascii String.
From Stdlib Require Import Reals Lra List ZArith Lia Bool.
Import ListNotations.

Open Scope R_scope.

(** ** Exceptions and results *)

Inductive exn : Type :=
| ValueError
| ParameterError
| OverflowError
| OtherError (msg : string).

Inductive result (A : Type) : Type :=
| Ok (a : A)
| Raise (e : exn).

Arguments Ok {A} a.
Arguments Raise {A} e.

Definition rbind {A B : Type} (r : result A) (k : A -> result B) : result B :=
  match r with
  | Ok a => k a
  | Raise e => Raise e
  end.

(** ** The NumPy operations used by the normalizer *)

(** [np.abs(y)] *)
Definition np_abs (y : list R) : list R := map Rabs y.

(** [np.max(y)]: a reduction without identity, so the empty array raises. *)
Definition np_max (y : list R) : result R :=
  match y with
  | [] => Raise ValueError
  | x :: xs => Ok (fold_left Rmax xs x)
  end.

(** [y * c] for an array [y] and a scalar [c] *)
Definition np_scale (y : list R) (c : R) : list R := map (fun s => s * c) y.

(** ** The normalizer *)

(** The default of the keyword argument [peak_db]. *)
Definition default_peak_db : R := -1.

(** [normalize_audio(y, peak_db)], in exact arithmetic: the view the
    pipeline uses.  [normalize_audio_f32] below is the same function with
    the finite range of the floats. *)
Definition normalize_audio (y : list R) (peak_db : R) : result (list R) :=
  rbind (np_max (np_abs y)) (fun peak =>
    if Req_dec_T peak 0 then Ok y
    else
      let target := Rpower 10 (peak_db / 20) in
      Ok (np_scale y (target / peak))).

(** ** Effects: the trace of calls to the external libraries *)

Inductive event : Type :=
| EvLoad (file_path : string)
| EvTimeStretch (y : list R) (rate : R)
| EvPitchShift (y : list R) (sr : Z) (n_steps : Z)
| EvSave (file_path : string) (y : list R) (sr : Z)
| EvPlay (y : list R) (sr : Z).

(** The external libraries.  [sd_playback] stands for the whole body of
    [play_audio]: the notices, the key listener and [sd.play]/[sd.wait]. *)
Class Backend : Type := {
  librosa_load : string -> result (list R * Z);
  librosa_time_stretch : list R -> R -> result (list R);
  librosa_pitch_shift : list R -> Z -> Z -> result (list R);
  sf_write : string -> list R -> Z -> result unit;
  sd_playback : list R -> Z -> result unit
}.

(** A computation threads the trace and may raise. *)
Definition M (A : Type) : Type := list event -> list event * result A.

Definition ret {A : Type} (a : A) : M A := fun tr => (tr, Ok a).

Definition bind {A B : Type} (m : M A) (k : A -> M B) : M B :=
  fun tr =>
    match m tr with
    | (tr', Ok a) => k a tr'
    | (tr', Raise e) => (tr', Raise e)
    end.

(** A pure step that may raise. *)
Definition lift {A : Type} (r : result A) : M A := fun tr => (tr, r).

(** A call to an external library: logged, then its outcome. *)
Definition call {A : Type} (e : event) (r : result A) : M A :=
  fun tr => (tr ++ [e], r).

Notation "x <- m ;; k" := (bind m (fun x => k))
  (at level 61, m at next level, right associativity).
Notation "' pat <- m ;; k" := (bind m (fun x => match x with pat => k end))
  (at level 61, pat pattern, m at next level, right associativity).

(** Python truthiness of [output_path]: [None] and the empty string are
    both false. *)
Definition truthy (output_path : option string) : option string :=
  match output_path with
  | Some EmptyString => None
  | Some p => Some p
  | None => None
  end.

Section Pipeline.

Context {B : Backend}.

(** [load_audio(file_path)] *)
Definition load_audio (file_path : string) : M (list R * Z) :=
  call (EvLoad file_path) (librosa_load file_path).

(** [change_pitch(y, sr, semitones)] *)
Definition change_pitch (y : list R) (sr : Z) (semitones : Z) : M (list R) :=
  call (EvPitchShift y sr semitones) (librosa_pitch_shift y sr semitones).

(** [change_speed(y, rate)] *)
Definition change_speed (y : list R) (rate : R) : M (list R) :=
  call (EvTimeStretch y rate) (librosa_time_stretch y rate).

(** [save_audio(y, sr, file_path)] *)
Definition save_audio (y : list R) (sr : Z) (file_path : string) : M unit :=
  call (EvSave file_path y sr) (sf_write file_path y sr).

(** [play_audio(y, sr)] *)
Definition play_audio (y : list R) (sr : Z) : M unit :=
  call (EvPlay y sr) (sd_playback y sr).

(** [trasposa(input_path, semitones, speed, normalize, output_path)] *)
Definition trasposa (input_path : string) (semitones : Z) (speed : R)
    (normalize : bool) (output_path : option string) : M (list R * Z) :=
  '(y, sr) <- load_audio input_path ;;
  y <- (if Req_dec_T speed 1 then ret y else change_speed y speed) ;;
  y <- (if Z.eq_dec semitones 0 then ret y
        else change_pitch y sr semitones) ;;
  y <- (if normalize then lift (normalize_audio y default_peak_db)
        else ret y) ;;
  _ <- match truthy output_path with
       | Some p => save_audio y sr p
       | None => play_audio y sr
       end ;;
  ret (y, sr).

(** The parsed command line of [main]. *)
Record Args : Type := {
  arg_input : string;
  arg_output : option string;
  arg_semitones : Z;
  arg_speed : R;
  arg_no_normalize : bool
}.

(** [main()], after [parser.parse_args()]: the pair that [trasposa]
    returns is dropped, and [main] returns [None]. *)
Definition main (args : Args) : M unit :=
  _ <- trasposa (arg_input args) (arg_semitones args) (arg_speed args)
                (negb (arg_no_normalize args)) (arg_output args) ;;
  ret tt.

End Pipeline.

(** ** Vocabulary of the properties *)

(** [p] is the largest absolute sample value of [y]. *)
Definition is_peak (y : list R) (p : R) : Prop :=
  (forall s, In s y -> Rabs s <= p) /\ (exists s, In s y /\ Rabs s = p).

(** Every sample is zero. *)
Definition silent (y : list R) : Prop := Forall (fun s => s = 0) y.

(** The calls to the two transforms, and the calls that produce output. *)
Definition is_transform (e : event) : bool :=
  match e with
  | EvTimeStretch _ _ | EvPitchShift _ _ _ => true
  | _ => false
  end.

Definition is_output (e : event) : bool :=
  match e with
  | EvSave _ _ _ | EvPlay _ _ => true
  | _ => false
  end.

(** The last call of [trasposa]: what it is, and how it ends. *)
Definition output_event (output_path : option string) (y : list R) (sr : Z)
    : event :=
  match truthy output_path with
  | Some p => EvSave p y sr
  | None => EvPlay y sr
  end.

Definition output_result {B : Backend} (output_path : option string)
    (y : list R) (sr : Z) : result unit :=
  match truthy output_path with
  | Some p => sf_write p y sr
  | None => sd_playback y sr
  end.

(** *** What is assumed of librosa, where a property depends on it *)

(** [librosa.effects.time_stretch] raises [ParameterError] unless
    [rate > 0]. *)
Definition rejects_nonpositive_rate (B : Backend) : Prop :=
  forall y rate, rate <= 0 -> librosa_time_stretch y rate = Raise ParameterError.

(** The stretched signal is as long as [len(y) / rate], within [hop]. *)
Definition stretch_length_law (B : Backend) (hop : R) : Prop :=
  forall y rate y', 0 < rate -> librosa_time_stretch y rate = Ok y' ->
    Rabs (INR (length y') - INR (length y) / rate) <= hop.

(** [librosa.effects.pitch_shift] returns a signal of the input's length. *)
Definition pitch_length_law (B : Backend) : Prop :=
  forall y sr n y', librosa_pitch_shift y sr n = Ok y' -> length y' = length y.

(** Both transforms map silence to silence. *)
Definition transforms_keep_silence (B : Backend) : Prop :=
  (forall y rate y', silent y -> librosa_time_stretch y rate = Ok y' -> silent y')
  /\ (forall y sr n y', silent y -> librosa_pitch_shift y sr n = Ok y' -> silent y').

(** ** A small backend to run the pipeline on

    A sample-and-hold stretch (output sample [i] is input sample
    [floor (i * rate)], for [round (len / rate)] samples), a pitch shift
    that returns its input, one readable file and output that succeeds. *)

Definition nearest_len (n : nat) (rate : R) : nat :=
  Z.to_nat (up (INR n / rate - / 2)).

Definition hold_stretch (y : list R) (rate : R) : result (list R) :=
  if Rle_dec rate 0 then Raise ParameterError
  else Ok (map (fun i => nth (Z.to_nat (up (INR i * rate) - 1)) y 0)
               (seq 0 (nearest_len (length y) rate))).

Definition tone : list R := [1; -2; / 2; 0].

Definition demo_load (file_path : string) : result (list R * Z) :=
  if String.eqb file_path "tone.wav"%string then Ok (tone, 44100%Z)
  else if String.eqb file_path "empty.wav"%string then Ok ([], 44100%Z)
  else Raise (OtherError "no such file"%string).

Definition demo : Backend := {|
  librosa_load := demo_load;
  librosa_time_stretch := hold_stretch;
  librosa_pitch_shift := fun y _ _ => Ok y;
  sf_write := fun _ _ _ => Ok tt;
  sd_playback := fun _ _ => Ok tt
|}.

(** ** The key handler of [play_audio]

    pynput hands [on_press] either a [KeyCode], whose [char] is a string or
    [None], or a special [Key] (shift, arrows, ...), which has no [char]
    attribute: reading it raises the [AttributeError] that the handler
    catches.  A string is its bytes; [lower] changes the ASCII capitals,
    which is where [str.lower()] can produce the letter q. *)

Inductive key : Type :=
| KeyCode (char : option string)
| SpecialKey (name : string).

(** The calls the handler makes to sounddevice. *)
Inductive sd_call : Type :=
| SdStop.

Definition lower_ascii (c : ascii) : ascii :=
  let n := nat_of_ascii c in
  if ((65 <=? n) && (n <=? 90))%nat then ascii_of_nat (n + 32) else c.

Fixpoint lower (s : string) : string :=
  match s with
  | EmptyString => EmptyString
  | String c s' => String (lower_ascii c) (lower s')
  end.

(** [on_press(key)]: the calls made and the value returned, where [False]
    stops the listener and [None] keeps it listening. *)
Definition on_press (k : key) : list sd_call * option bool :=
  match k with
  | KeyCode (Some c) =>
      if negb (String.eqb c EmptyString) && String.eqb (lower c) "q"
      then ([SdStop], Some false)
      else ([], None)
  | KeyCode None => ([], None)
  | SpecialKey _ => ([], None)
  end.

(** ** The command line with its defaults *)

(** What [parse_args] returns when only the input file is given: every
    option at the [default] it is declared with. *)
Definition default_args (input : string) : Args := {|
  arg_input := input;
  arg_output := None;
  arg_semitones := 0;
  arg_speed := 1;
  arg_no_normalize := false
|}.

(** ** Further vocabulary *)

(** The library call that an event records raised [e]. *)
Definition raised {B : Backend} (ev : event) (e : exn) : Prop :=
  match ev with
  | EvLoad p => librosa_load p = Raise e
  | EvTimeStretch y rate => librosa_time_stretch y rate = Raise e
  | EvPitchShift y sr n => librosa_pitch_shift y sr n = Raise e
  | EvSave p y sr => sf_write p y sr = Raise e
  | EvPlay y sr => sd_playback y sr = Raise e
  end.

(** A backend with one silent file, and one whose disk is full. *)
Definition quiet : Backend := {|
  librosa_load := fun _ => Ok ([0; 0; 0], 8000%Z);
  librosa_time_stretch := hold_stretch;
  librosa_pitch_shift := fun y _ _ => Ok y;
  sf_write := fun _ _ _ => Ok tt;
  sd_playback := fun _ _ => Ok tt
|}.

Definition disk_full : Backend := {|
  librosa_load := demo_load;
  librosa_time_stretch := hold_stretch;
  librosa_pitch_shift := fun y _ _ => Ok y;
  sf_write := fun _ _ _ => Raise (OtherError "disk full"%string);
  sd_playback := fun _ _ => Ok tt
|}.

(** ** The normalizer within floating-point range

    [normalize_audio] above computes with exact reals.  The code computes
    with floats, whose range is finite: [10 ** x] raises [OverflowError]
    when the power is too large for a Python float, and a float32 quotient
    or product that is too large becomes an infinity, one that is too small
    becomes zero, and [0 * inf] is not a number.  [normalize_audio_f32]
    keeps all of that for a float32 signal, as [librosa.load] returns it:
    under NumPy's promotion rules the Python float [target] takes the
    float32 type of [peak], so the quotient and the products are float32.
    What it leaves out is the rounding of a result that is within range,
    and the sign of zero. *)

Inductive fnum : Type :=
| Fin (r : R)
| Inf (negative : bool)
| NaN.

(** Where binary32 and binary64 round to infinity and to zero: half an ulp
    above the largest finite number, half the smallest subnormal. *)
Definition f32_ovf : R := 2 ^ 128 - 2 ^ 103.
Definition f32_unf : R := / 2 ^ 150.
Definition f64_ovf : R := 2 ^ 1024 - 2 ^ 970.
Definition f64_unf : R := / 2 ^ 1075.

Definition negative (r : R) : bool := if Rlt_dec r 0 then true else false.

(** The float32 nearest to a real, as far as range goes. *)
Definition round32 (r : R) : fnum :=
  if Rle_dec f32_ovf (Rabs r) then Inf (negative r)
  else if Rle_dec (Rabs r) f32_unf then Fin 0
  else Fin r.

Definition fabs (x : fnum) : fnum :=
  match x with
  | Fin r => Fin (Rabs r)
  | Inf _ => Inf false
  | NaN => NaN
  end.

(** The maximum as [np.max] takes it: a NaN wins. *)
Definition fmax (a b : fnum) : fnum :=
  match a, b with
  | NaN, _ | _, NaN => NaN
  | Inf false, _ | _, Inf false => Inf false
  | Inf true, x | x, Inf true => x
  | Fin x, Fin y => Fin (Rmax x y)
  end.

Definition fmul32 (a b : fnum) : fnum :=
  match a, b with
  | NaN, _ | _, NaN => NaN
  | Inf sa, Inf sb => Inf (xorb sa sb)
  | Inf sa, Fin r | Fin r, Inf sa =>
      if Req_dec_T r 0 then NaN else Inf (xorb sa (negative r))
  | Fin x, Fin y => round32 (x * y)
  end.

Definition fdiv32 (a b : fnum) : fnum :=
  match a, b with
  | NaN, _ | _, NaN => NaN
  | Inf _, Inf _ => NaN
  | Inf sa, Fin r => Inf (xorb sa (negative r))
  | Fin _, Inf _ => Fin 0
  | Fin x, Fin y =>
      if Req_dec_T y 0
      then (if Req_dec_T x 0 then NaN else Inf (negative x))
      else round32 (x / y)
  end.

(** [np.abs(y)] and [np.max(y)] on float32 arrays *)
Definition np_abs_f (y : list fnum) : list fnum := map fabs y.

Definition np_max_f (y : list fnum) : result fnum :=
  match y with
  | [] => Raise ValueError
  | x :: xs => Ok (fold_left fmax xs x)
  end.

(** [peak == 0] *)
Definition is_zero (x : fnum) : bool :=
  match x with
  | Fin r => if Req_dec_T r 0 then true else false
  | _ => false
  end.

(** [10 ** x] for a Python float [x]: [OverflowError] when the power
    rounds to infinity, zero when it rounds to zero. *)
Definition py_pow10 (x : R) : result R :=
  if Rle_dec f64_ovf (Rpower 10 x) then Raise OverflowError
  else if Rle_dec (Rpower 10 x) f64_unf then Ok 0
  else Ok (Rpower 10 x).

(** [normalize_audio(y, peak_db)] on a float32 array *)
Definition normalize_audio_f32 (y : list fnum) (peak_db : R)
    : result (list fnum) :=
  rbind (np_max_f (np_abs_f y)) (fun peak =>
    if is_zero peak then Ok y
    else
      rbind (py_pow10 (peak_db / 20)) (fun target =>
        let gain := fdiv32 (round32 target) peak in
        Ok (map (fun s => fmul32 s gain) y))).

(** A positive real well inside the normal range of float32: a factor of
    two above the smallest normal number and a factor of two below the
    largest, so that the rounding of a target, a gain or a product cannot
    carry it out of range. *)
Definition f32_lo : R := / 2 ^ 125.
Definition f32_hi : R := 2 ^ 127.
Definition in_range32 (r : R) : Prop := f32_lo <= r <= f32_hi.

(** A real as float32 holds it when it does not overflow. *)
Definition flush32 (r : R) : R := if Rle_dec (Rabs r) f32_unf then 0 else r.

(** The smallest positive float32. *)
Definition tiny32 : R := / 2 ^ 149.

(** * Properties *)

(** ** The maximum of a non-empty array *)

Lemma fold_max_ge_init (xs : list R) (x : R) : x <= fold_left Rmax xs x.
Proof.
  revert x; induction xs as [|a xs IH]; intro x; simpl.
  - lra.
  - eapply Rle_trans; [apply (Rmax_l x a) | apply IH].
Qed.

Lemma fold_max_upper (xs : list R) (x z : R) :
  In z (x :: xs) -> z <= fold_left Rmax xs x.
Proof.
  revert x; induction xs as [|a xs IH]; intros x [Hz | Hz]; simpl in *.
  - lra.
  - contradiction.
  - subst z. eapply Rle_trans; [apply (Rmax_l x a) | apply fold_max_ge_init].
  - destruct Hz as [Hz | Hz].
    + subst z. eapply Rle_trans; [apply (Rmax_r x a) | apply fold_max_ge_init].
    + apply IH. right. exact Hz.
Qed.

Lemma fold_max_in (xs : list R) (x : R) : In (fold_left Rmax xs x) (x :: xs).
Proof.
  revert x; induction xs as [|a xs IH]; intro x; simpl.
  - left; reflexivity.
  - destruct (IH (Rmax x a)) as [H | H].
    + rewrite <- H. unfold Rmax. destruct (Rle_dec x a); auto.
    + right; right; exact H.
Qed.



Lemma np_scale_one (y : list R) (c : R) : c = 1 -> np_scale y c = y.
Proof.
  intros ->. unfold np_scale. rewrite <- (map_id y) at 2.
  apply map_ext. intro s. ring.
Qed.

Lemma nth_np_scale (y : list R) (c : R) (i : nat) :
  nth i (np_scale y c) 0 = nth i y 0 * c.
Proof.
  revert i; induction y as [|x xs IH]; intros [|i]; simpl;
    try ring; try reflexivity.
  apply IH.
Qed.


Lemma np_max_abs_is_peak (y : list R) (p : R) :
  np_max (np_abs y) = Ok p -> is_peak y p.
Proof.
  destruct y as [|x xs]; simpl; [discriminate|].
  intro H. injection H as <-. split.
  - intros s Hs. apply (fold_max_upper (map Rabs xs) (Rabs x)).
    change (In (Rabs s) (map Rabs (x :: xs))). apply in_map. exact Hs.
  - pose proof (fold_max_in (map Rabs xs) (Rabs x)) as Hin.
    change (In (fold_left Rmax (map Rabs xs) (Rabs x)) (map Rabs (x :: xs))) in Hin.
    apply in_map_iff in Hin. destruct Hin as [s [Hs Hin]].
    exists s. split; assumption.
Qed.

Lemma np_max_abs_defined (y : list R) :
  y <> [] -> exists p, np_max (np_abs y) = Ok p.
Proof.
  destruct y as [|x xs]; [congruence|]. intros _. simpl. eauto.
Qed.

Lemma is_peak_nonneg (y : list R) (p : R) : is_peak y p -> 0 <= p.
Proof.
  intros [_ [s [_ <-]]]. apply Rabs_pos.
Qed.

Lemma is_peak_zero_silent (y : list R) : is_peak y 0 -> silent y.
Proof.
  intros [Hub _]. apply Forall_forall. intros s Hs.
  specialize (Hub s Hs). pose proof (Rabs_pos s) as Hp.
  destruct (Req_dec s 0) as [E | E]; [exact E|].
  apply Rabs_no_R0 in E. lra.
Qed.

Lemma silent_peak_zero (y : list R) (p : R) : silent y -> is_peak y p -> p = 0.
Proof.
  intros Hs [_ [s [Hin <-]]].
  rewrite (proj1 (Forall_forall _ _) Hs s Hin). apply Rabs_R0.
Qed.


(** The two branches of the normalizer, once the peak is known. *)
Lemma normalize_audio_silent (y : list R) (peak_db : R) :
  np_max (np_abs y) = Ok 0 -> normalize_audio y peak_db = Ok y.
Proof.
  intro H. unfold normalize_audio. rewrite H. simpl.
  destruct (Req_dec_T 0 0); [reflexivity | congruence].
Qed.

Lemma normalize_audio_scaled (y : list R) (peak_db peak : R) :
  np_max (np_abs y) = Ok peak -> peak <> 0 ->
  normalize_audio y peak_db = Ok (np_scale y (Rpower 10 (peak_db / 20) / peak)).
Proof.
  intros H Hp. unfold normalize_audio. rewrite H. simpl.
  destruct (Req_dec_T peak 0); [contradiction | reflexivity].
Qed.



Lemma normalize_audio_length (y y' : list R) (peak_db : R) :
  normalize_audio y peak_db = Ok y' -> length y' = length y.
Proof.
  unfold normalize_audio. destruct (np_max (np_abs y)) as [p|e]; simpl.
  - destruct (Req_dec_T p 0); intro H; injection H as <-.
    + reflexivity.
    + unfold np_scale. apply length_map.
  - discriminate.
Qed.

Lemma normalize_audio_defined (y : list R) (peak_db : R) :
  y <> [] -> exists y', normalize_audio y peak_db = Ok y'.
Proof.
  intro Hy. destruct (np_max_abs_defined y Hy) as [p Hp].
  unfold normalize_audio. rewrite Hp. simpl.
  destruct (Req_dec_T p 0); eauto.
Qed.

(** ** Running the pipeline *)

Lemma bind_ok_inv {A C : Type} (m : M A) (k : A -> M C) tr tr' c :
  bind m k tr = (tr', Ok c) ->
  exists a tr1, m tr = (tr1, Ok a) /\ k a tr1 = (tr', Ok c).
Proof.
  unfold bind. destruct (m tr) as [tr1 [a|e]]; [eauto | discriminate].
Qed.

Lemma call_ok_inv {A : Type} (e : event) (r : result A) tr tr' a :
  call e r tr = (tr', Ok a) -> r = Ok a /\ tr' = tr ++ [e].
Proof. unfold call. intro H. injection H as <- ->. auto. Qed.

Lemma ret_ok_inv {A : Type} (a a' : A) tr tr' :
  ret a tr = (tr', Ok a') -> a' = a /\ tr' = tr.
Proof. unfold ret. intro H. injection H as <- <-. auto. Qed.

Lemma lift_ok_inv {A : Type} (r : result A) tr tr' a :
  lift r tr = (tr', Ok a) -> r = Ok a /\ tr' = tr.
Proof. unfold lift. intro H. injection H as <- ->. auto. Qed.

(** Peel the first stage off a successful run. *)
Tactic Notation "peel" hyp(H) "as" ident(a) ident(t) ident(Ha) :=
  apply bind_ok_inv in H; destruct H as (a & t & Ha & H).

Section Runs.

Context {B : Backend}.

(** Every successful run went through these stages, and left this trace. *)
Lemma trasposa_ok_inv p n s norm o tr tr' y' sr' :
  trasposa p n s norm o tr = (tr', Ok (y', sr')) ->
  exists y0 y1 y2,
    librosa_load p = Ok (y0, sr')
    /\ (if Req_dec_T s 1 then y1 = y0 else librosa_time_stretch y0 s = Ok y1)
    /\ (if Z.eq_dec n 0 then y2 = y1 else librosa_pitch_shift y1 sr' n = Ok y2)
    /\ (if norm then normalize_audio y2 default_peak_db = Ok y' else y' = y2)
    /\ output_result o y' sr' = Ok tt
    /\ tr' = tr ++ [EvLoad p]
                ++ (if Req_dec_T s 1 then [] else [EvTimeStretch y0 s])
                ++ (if Z.eq_dec n 0 then [] else [EvPitchShift y1 sr' n])
                ++ [output_event o y' sr'].
Proof.
  intro H. unfold trasposa in H.
  peel H as ysr t1 H1. destruct ysr as [y0 sr0].
  peel H as y1 t2 H2. peel H as y2 t3 H3. peel H as y3 t4 H4.
  peel H as u t5 H5.
  apply ret_ok_inv in H. destruct H as [E ->]. injection E as -> ->.
  apply call_ok_inv in H1. destruct H1 as [Hload ->].
  exists y0, y1, y2. split; [exact Hload|].
  assert (Hs : (if Req_dec_T s 1 then y1 = y0
                else librosa_time_stretch y0 s = Ok y1)
               /\ t2 = (tr ++ [EvLoad p])
                       ++ (if Req_dec_T s 1 then [] else [EvTimeStretch y0 s])).
  { destruct (Req_dec_T s 1).
    - apply ret_ok_inv in H2. destruct H2 as [-> ->].
      rewrite app_nil_r. auto.
    - apply call_ok_inv in H2. exact H2. }
  destruct Hs as [Hs ->]. split; [exact Hs|].
  assert (Hp : (if Z.eq_dec n 0 then y2 = y1
                else librosa_pitch_shift y1 sr0 n = Ok y2)
               /\ t3 = ((tr ++ [EvLoad p])
                        ++ (if Req_dec_T s 1 then [] else [EvTimeStretch y0 s]))
                       ++ (if Z.eq_dec n 0 then [] else [EvPitchShift y1 sr0 n])).
  { destruct (Z.eq_dec n 0).
    - apply ret_ok_inv in H3. destruct H3 as [-> ->].
      rewrite app_nil_r. auto.
    - apply call_ok_inv in H3. exact H3. }
  destruct Hp as [Hp ->]. split; [exact Hp|].
  assert (Hn : (if norm then normalize_audio y2 default_peak_db = Ok y3
                else y3 = y2) /\ t5 = t4 ++ [output_event o y3 sr0]
               /\ output_result o y3 sr0 = Ok tt
               /\ t4 = ((tr ++ [EvLoad p])
                        ++ (if Req_dec_T s 1 then [] else [EvTimeStretch y0 s]))
                       ++ (if Z.eq_dec n 0 then [] else [EvPitchShift y1 sr0 n])).
  { assert (Hout : output_result o y3 sr0 = Ok tt
                   /\ t5 = t4 ++ [output_event o y3 sr0]).
    { unfold output_result, output_event. destruct u.
      destruct (truthy o); apply call_ok_inv in H5; exact H5. }
    destruct Hout as [Hout ->].
    destruct norm.
    - apply lift_ok_inv in H4. destruct H4 as [H4 ->]. auto.
    - apply ret_ok_inv in H4. destruct H4 as [-> ->]. auto. }
  destruct Hn as (Hn & -> & Hout & ->).
  split; [exact Hn|]. split; [exact Hout|].
  rewrite <- !app_assoc. reflexivity.
Qed.

(** Conversely, stages that all succeed make a successful run. *)
Lemma trasposa_run p n s (norm : bool) o tr y0 y1 y2 y3 sr :
  librosa_load p = Ok (y0, sr) ->
  (if Req_dec_T s 1 then y1 = y0 else librosa_time_stretch y0 s = Ok y1) ->
  (if Z.eq_dec n 0 then y2 = y1 else librosa_pitch_shift y1 sr n = Ok y2) ->
  (if norm then normalize_audio y2 default_peak_db = Ok y3 else y3 = y2) ->
  output_result o y3 sr = Ok tt ->
  trasposa p n s norm o tr
  = (tr ++ [EvLoad p]
        ++ (if Req_dec_T s 1 then [] else [EvTimeStretch y0 s])
        ++ (if Z.eq_dec n 0 then [] else [EvPitchShift y1 sr n])
        ++ [output_event o y3 sr],
     Ok (y3, sr)).
Proof.
  intros Hload Hs Hp Hn Hout.
  unfold trasposa, bind, load_audio, change_speed, change_pitch,
    save_audio, play_audio, call, lift, ret.
  unfold output_result, output_event in *.
  rewrite Hload.
  destruct (Req_dec_T s 1); destruct (Z.eq_dec n 0); destruct norm;
    subst; try rewrite Hs; try rewrite Hp; try rewrite Hn;
    destruct (truthy o); rewrite Hout; simpl;
    rewrite <- ?app_assoc; reflexivity.
Qed.

End Runs.

(** ** The small backend meets what is assumed of librosa *)

Lemma demo_rejects : rejects_nonpositive_rate demo.
Proof.
  intros y rate Hr. simpl. unfold hold_stretch.
  destruct (Rle_dec rate 0); [reflexivity | contradiction].
Qed.

Lemma nearest_len_close (n : nat) (rate : R) :
  0 < rate -> Rabs (INR (nearest_len n rate) - INR n / rate) <= / 2.
Proof.
  intro Hr. unfold nearest_len.
  assert (Hx : 0 <= INR n / rate).
  { apply Rmult_le_pos; [apply pos_INR | left; apply Rinv_0_lt_compat; exact Hr]. }
  destruct (archimed (INR n / rate - / 2)) as [H1 H2].
  set (k := up (INR n / rate - / 2)) in *.
  assert (Hk : (0 <= k)%Z).
  { assert (Hlt : (-1 < k)%Z) by (apply lt_IZR; lra). lia. }
  rewrite INR_IZR_INZ, Z2Nat.id by exact Hk.
  apply Rabs_le. lra.
Qed.

Lemma demo_stretch_length : stretch_length_law demo 512.
Proof.
  intros y rate y' Hr H. simpl in H. unfold hold_stretch in H.
  destruct (Rle_dec rate 0); [lra|]. injection H as <-.
  rewrite length_map, length_seq.
  pose proof (nearest_len_close (length y) rate Hr). lra.
Qed.

Lemma demo_pitch_length : pitch_length_law demo.
Proof. intros y sr n y' H. simpl in H. injection H as <-. reflexivity. Qed.

Lemma hold_stretch_tone_2 : hold_stretch tone 2 = Ok [1; / 2].
Proof.
  unfold hold_stretch. destruct (Rle_dec 2 0); [lra|].
  assert (Hlen : nearest_len (length tone) 2 = 2%nat).
  { unfold nearest_len.
    replace (up (INR (length tone) / 2 - / 2)) with 2%Z; [reflexivity|].
    apply tech_up; simpl; lra. }
  rewrite Hlen. simpl seq. simpl map.
  replace (up (0 * 2)) with 1%Z by (apply tech_up; lra).
  replace (up (1 * 2)) with 3%Z by (apply tech_up; lra).
  reflexivity.
Qed.

Lemma demo_load_tone : @librosa_load demo "tone.wav"%string = Ok (tone, 44100%Z).
Proof. reflexivity. Qed.

(** ** The normalizer *)

(** C6, where the code departs from it.  The normalizer has no path for an
    empty signal: taking its maximum raises. *)
Theorem normalize_audio_empty_raises (peak_db : R) :
  normalize_audio [] peak_db = Raise ValueError.
Proof. reflexivity. Qed.

(** The silence path itself: a silent signal with at least one sample
    comes back unchanged, without computing a gain. *)
Lemma normalize_audio_silence (y : list R) (peak_db : R) :
  y <> [] -> silent y -> normalize_audio y peak_db = Ok y.
Proof.
  intros Hy Hs. destruct (np_max_abs_defined y Hy) as [peak Hp].
  pose proof (silent_peak_zero y peak Hs (np_max_abs_is_peak y peak Hp)) as ->.
  apply normalize_audio_silent. exact Hp.
Qed.

Lemma normalize_audio_keeps_silence (y y' : list R) (peak_db : R) :
  silent y -> normalize_audio y peak_db = Ok y' -> silent y'.
Proof.
  intros Hs H. destruct y as [|x xs]; [discriminate|].
  rewrite normalize_audio_silence in H; [|discriminate|exact Hs].
  injection H as <-. exact Hs.
Qed.

(** ** The pipeline *)

Lemma filter_transform_output o y sr :
  filter is_transform [output_event o y sr] = [].
Proof. unfold output_event. destruct (truthy o); reflexivity. Qed.

Lemma demo_stretch_pitch_run :
  trasposa (B := demo) "tone.wav" 3 2 false None []
  = ([EvLoad "tone.wav"; EvTimeStretch tone 2;
      EvPitchShift [1; / 2] 44100 3; EvPlay [1; / 2] 44100],
     Ok ([1; / 2], 44100%Z)).
Proof.
  rewrite (trasposa_run (B := demo) "tone.wav" 3 2 false None []
             tone [1; / 2] [1; / 2] [1; / 2] 44100).
  - destruct (Req_dec_T 2 1); [lra|]. destruct (Z.eq_dec 3 0); [discriminate|].
    reflexivity.
  - reflexivity.
  - destruct (Req_dec_T 2 1); [lra | exact hold_stretch_tone_2].
  - destruct (Z.eq_dec 3 0); [discriminate | reflexivity].
  - reflexivity.
  - reflexivity.
Qed.

Lemma demo_normalized_run :
  exists y',
    normalize_audio [1; / 2] default_peak_db = Ok y'
    /\ trasposa (B := demo) "tone.wav" 0 2 true None []
       = ([EvLoad "tone.wav"; EvTimeStretch tone 2; EvPlay y' 44100],
          Ok (y', 44100%Z)).
Proof.
  destruct (normalize_audio_defined [1; / 2] default_peak_db) as [y' Hn];
    [discriminate|].
  exists y'. split; [exact Hn|].
  rewrite (trasposa_run (B := demo) "tone.wav" 0 2 true None []
             tone [1; / 2] [1; / 2] y' 44100).
  - destruct (Req_dec_T 2 1); [lra|]. reflexivity.
  - reflexivity.
  - destruct (Req_dec_T 2 1); [lra | exact hold_stretch_tone_2].
  - reflexivity.
  - exact Hn.
  - reflexivity.
Qed.

(** C2. A speed that is not positive is refused by the first stage that
    receives it: librosa's time stretch is called with the speed as given
    (it is not clamped) and, raising for a rate that is not positive, ends
    the run with that error; no pitch shift, normalization, save or
    playback follows the load. *)
Theorem nonpositive_speed_rejected {B : Backend} p n s norm o tr y0 sr0 :
  rejects_nonpositive_rate B ->
  s <= 0 ->
  librosa_load p = Ok (y0, sr0) ->
  trasposa p n s norm o tr
  = (tr ++ [EvLoad p; EvTimeStretch y0 s], Raise ParameterError)
  /\ filter is_output (tr ++ [EvLoad p; EvTimeStretch y0 s])
     = filter is_output tr.
Proof.
  intros Hrej Hs Hload. split.
  - unfold trasposa, bind, load_audio, change_speed, call.
    rewrite Hload. destruct (Req_dec_T s 1) as [E|_]; [lra|].
    rewrite (Hrej y0 s Hs). rewrite <- app_assoc. reflexivity.
  - rewrite filter_app. simpl. apply app_nil_r.
Qed.

Lemma nonpositive_speed_rejected_witness :
  trasposa (B := demo) "tone.wav" 0 (-1) true None []
  = ([EvLoad "tone.wav"; EvTimeStretch tone (-1)], Raise ParameterError)
  /\ filter is_output [EvLoad "tone.wav"; EvTimeStretch tone (-1)] = [].
Proof.
  apply (nonpositive_speed_rejected (B := demo) "tone.wav" 0 (-1) true None []
           tone 44100).
  - exact demo_rejects.
  - lra.
  - reflexivity.
Defined.

(** C3. In a run that succeeds, the time stretch is called exactly when
    [speed <> 1], on the loaded signal and with ratio [speed]; the pitch
    shift is called exactly when [semitones <> 0]; and when both are called
    the stretch comes first and the pitch shift works on its result. *)
Theorem transforms_applied_in_order {B : Backend} p n s (norm : bool) o
    tr tr' y' sr' :
  trasposa p n s norm o tr = (tr', Ok (y', sr')) ->
  exists y0 y1 y2,
    librosa_load p = Ok (y0, sr')
    /\ (s = 1 -> y1 = y0)
    /\ (s <> 1 -> librosa_time_stretch y0 s = Ok y1)
    /\ (n = 0%Z -> y2 = y1)
    /\ (n <> 0%Z -> librosa_pitch_shift y1 sr' n = Ok y2)
    /\ (if norm then normalize_audio y2 default_peak_db = Ok y' else y' = y2)
    /\ filter is_transform tr'
       = filter is_transform tr
         ++ (if Req_dec_T s 1 then [] else [EvTimeStretch y0 s])
         ++ (if Z.eq_dec n 0 then [] else [EvPitchShift y1 sr' n]).
Proof.
  intro H. apply trasposa_ok_inv in H.
  destruct H as (y0 & y1 & y2 & Hload & Hs & Hp & Hn & _ & ->).
  exists y0, y1, y2. split; [exact Hload|].
  repeat rewrite filter_app. rewrite filter_transform_output.
  destruct (Req_dec_T s 1) as [Es|Es]; destruct (Z.eq_dec n 0) as [En|En];
    simpl; rewrite ?app_nil_r; repeat split; auto; intros; congruence.
Qed.

Lemma transforms_applied_in_order_witness :
  exists y0 y1 y2,
    @librosa_load demo "tone.wav" = Ok (y0, 44100%Z)
    /\ (2 = 1 -> y1 = y0)
    /\ (2 <> 1 -> @librosa_time_stretch demo y0 2 = Ok y1)
    /\ (3%Z = 0%Z -> y2 = y1)
    /\ (3%Z <> 0%Z -> @librosa_pitch_shift demo y1 44100 3 = Ok y2)
    /\ [1; / 2] = y2
    /\ filter is_transform
         [EvLoad "tone.wav"; EvTimeStretch tone 2;
          EvPitchShift [1; / 2] 44100 3; EvPlay [1; / 2] 44100]
       = filter is_transform []
         ++ (if Req_dec_T 2 1 then [] else [EvTimeStretch y0 2])
         ++ (if Z.eq_dec 3 0 then [] else [EvPitchShift y1 44100 3]).
Proof.
  exact (transforms_applied_in_order (B := demo) "tone.wav" 3 2 false None
           [] _ _ _ demo_stretch_pitch_run).
Defined.

(** C4. With speed 1, no semitone shift and normalization off, no
    transform is called and the run returns the loaded signal itself, at
    the loaded rate (so the error against the input is zero). *)
Theorem identity_run {B : Backend} p o tr y0 sr0 :
  librosa_load p = Ok (y0, sr0) ->
  output_result o y0 sr0 = Ok tt ->
  trasposa p 0 1 false o tr
  = (tr ++ [EvLoad p; output_event o y0 sr0], Ok (y0, sr0)).
Proof.
  intros Hload Hout.
  rewrite (trasposa_run p 0 1 false o tr y0 y0 y0 y0 sr0); auto.
  - destruct (Req_dec_T 1 1); [|congruence].
    destruct (Z.eq_dec 0 0); [|congruence]. reflexivity.
  - destruct (Req_dec_T 1 1); congruence.
  - destruct (Z.eq_dec 0 0); congruence.
Qed.

Lemma identity_run_witness :
  trasposa (B := demo) "tone.wav" 0 1 false (Some "out.wav"%string) []
  = ([EvLoad "tone.wav"; EvSave "out.wav" tone 44100], Ok (tone, 44100%Z)).
Proof.
  apply (identity_run (B := demo) "tone.wav" (Some "out.wav"%string) []
           tone 44100); reflexivity.
Defined.

(** C8. Duration law.  When the stretch returns a signal whose length is
    within [hop] of [len / rate] and the pitch shift keeps the length, the
    signal returned by a run at speed [s > 0] has a length within [hop] of
    the loaded length divided by [s], whatever the other parameters. *)
Theorem duration_law {B : Backend} (hop : R) p n s norm o tr tr' y0 sr0 y' sr' :
  stretch_length_law B hop ->
  pitch_length_law B ->
  0 <= hop ->
  0 < s ->
  librosa_load p = Ok (y0, sr0) ->
  trasposa p n s norm o tr = (tr', Ok (y', sr')) ->
  Rabs (INR (length y') - INR (length y0) / s) <= hop.
Proof.
  intros Hstretch Hpitch Hhop Hs Hload H.
  apply trasposa_ok_inv in H.
  destruct H as (z0 & y1 & y2 & Hload' & H1 & H2 & H3 & _ & _).
  rewrite Hload in Hload'. injection Hload' as <- <-.
  assert (L3 : length y' = length y2).
  { destruct norm; [apply (normalize_audio_length _ _ _ H3) | congruence]. }
  assert (L2 : length y2 = length y1).
  { destruct (Z.eq_dec n 0); [congruence | apply (Hpitch _ _ _ _ H2)]. }
  rewrite L3, L2.
  destruct (Req_dec_T s 1) as [-> | Hne].
  - subst y1. replace (INR (length y0) - INR (length y0) / 1) with 0 by field.
    rewrite Rabs_R0. exact Hhop.
  - apply (Hstretch y0 s y1 Hs H1).
Qed.

Lemma duration_law_witness :
  exists y',
    trasposa (B := demo) "tone.wav" 0 2 true None []
    = ([EvLoad "tone.wav"; EvTimeStretch tone 2; EvPlay y' 44100],
       Ok (y', 44100%Z))
    /\ Rabs (INR (length y') - INR (length tone) / 2) <= 512.
Proof.
  destruct demo_normalized_run as [y' [_ Hrun]].
  exists y'. split; [exact Hrun|].
  apply (duration_law (B := demo) 512 "tone.wav" 0 2 true None []
           [EvLoad "tone.wav"; EvTimeStretch tone 2; EvPlay y' 44100]
           tone 44100 y' 44100).
  - exact demo_stretch_length.
  - exact demo_pitch_length.
  - lra.
  - lra.
  - reflexivity.
  - exact Hrun.
Defined.

(** C9. The sample rate returned by a run is the rate of the loaded file,
    and it is the rate handed to the save or the playback. *)
Theorem sample_rate_preserved {B : Backend} p n s norm o tr tr' y0 sr0 y' sr' :
  librosa_load p = Ok (y0, sr0) ->
  trasposa p n s norm o tr = (tr', Ok (y', sr')) ->
  sr' = sr0 /\ In (output_event o y' sr0) tr'.
Proof.
  intros Hload H. apply trasposa_ok_inv in H.
  destruct H as (z0 & y1 & y2 & Hload' & _ & _ & _ & _ & ->).
  rewrite Hload in Hload'. injection Hload' as <- <-.
  split; [reflexivity|].
  repeat (apply in_or_app; right). left. reflexivity.
Qed.

Lemma sample_rate_preserved_witness :
  (44100 = 44100)%Z
  /\ In (output_event None [1; / 2] 44100)
        [EvLoad "tone.wav"; EvTimeStretch tone 2;
         EvPitchShift [1; / 2] 44100 3; EvPlay [1; / 2] 44100].
Proof.
  apply (sample_rate_preserved (B := demo) "tone.wav" 3 2 false None []
           [EvLoad "tone.wav"; EvTimeStretch tone 2;
            EvPitchShift [1; / 2] 44100 3; EvPlay [1; / 2] 44100]
           tone 44100 [1; / 2] 44100).
  - reflexivity.
  - exact demo_stretch_pitch_run.
Defined.



(** The command line reaches the same step: [main] has no flag for the
    target either, and what it saves or plays is normalized to it. *)
Corollary main_normalizes_to_default {B : Backend} args tr tr' :
  arg_no_normalize args = false ->
  main args tr = (tr', Ok tt) ->
  exists y2 y' sr,
    normalize_audio y2 (-1) = Ok y'
    /\ In (output_event (arg_output args) y' sr) tr'.
Proof.
  intros Hflag H. unfold main in H. rewrite Hflag in H. simpl in H.
  apply bind_ok_inv in H. destruct H as ([y' sr] & t1 & H & Hret).
  apply ret_ok_inv in Hret. destruct Hret as [_ ->].
  apply trasposa_ok_inv in H.
  destruct H as (y0 & y1 & y2 & _ & _ & _ & Hn & _ & ->).
  exists y2, y', sr. split; [exact Hn|].
  repeat (apply in_or_app; right). left. reflexivity.
Qed.

(** ** Silence and empty signals *)

(** X16. Silence in, silence out: when the transforms keep silence, so
    does a run that succeeds. *)
Lemma silence_preserved {B : Backend} p n s norm o tr tr' y0 sr0 y' sr' :
  transforms_keep_silence B ->
  librosa_load p = Ok (y0, sr0) ->
  silent y0 ->
  trasposa p n s norm o tr = (tr', Ok (y', sr')) ->
  silent y'.
Proof.
  intros [Hst Hpi] Hload Hsil H. apply trasposa_ok_inv in H.
  destruct H as (z0 & y1 & y2 & Hload' & H1 & H2 & H3 & _ & _).
  rewrite Hload in Hload'. injection Hload' as <- <-.
  assert (S1 : silent y1).
  { destruct (Req_dec_T s 1); [congruence | apply (Hst _ _ _ Hsil H1)]. }
  assert (S2 : silent y2).
  { destruct (Z.eq_dec n 0); [congruence | apply (Hpi _ _ _ _ S1 H2)]. }
  destruct norm; [apply (normalize_audio_keeps_silence _ _ _ S2 H3) | congruence].
Qed.

(** An empty file with the default parameters: the run raises in the
    normalizer, before any save or playback. *)
Lemma trasposa_empty_input_raises {B : Backend} p o tr sr0 :
  librosa_load p = Ok ([], sr0) ->
  trasposa p 0 1 true o tr = (tr ++ [EvLoad p], Raise ValueError).
Proof.
  intro Hload.
  unfold trasposa, bind, load_audio, call, ret, lift.
  rewrite Hload. destruct (Req_dec_T 1 1); [|congruence].
  destruct (Z.eq_dec 0 0); [|congruence]. reflexivity.
Qed.

(** With normalization off the same file comes back empty. *)
Lemma trasposa_empty_input_unnormalized {B : Backend} p o tr sr0 :
  librosa_load p = Ok ([], sr0) ->
  output_result o [] sr0 = Ok tt ->
  trasposa p 0 1 false o tr
  = (tr ++ [EvLoad p; output_event o [] sr0], Ok ([], sr0)).
Proof.
  intros Hload Hout.
  rewrite (trasposa_run p 0 1 false o tr [] [] [] [] sr0); auto.
  - destruct (Req_dec_T 1 1); [|congruence].
    destruct (Z.eq_dec 0 0); [|congruence]. reflexivity.
  - destruct (Req_dec_T 1 1); congruence.
  - destruct (Z.eq_dec 0 0); congruence.
Qed.

Example demo_empty_file_raises :
  trasposa (B := demo) "empty.wav" 0 1 true None []
  = ([EvLoad "empty.wav"], Raise ValueError).
Proof.
  apply (trasposa_empty_input_raises (B := demo) "empty.wav" None [] 44100).
  reflexivity.
Qed.

(** * Further properties of the code *)

(** ** More on the normalizer *)

Lemma is_peak_unique (y : list R) (p q : R) : is_peak y p -> is_peak y q -> p = q.
Proof.
  intros [Hp [sp [Hinp Hsp]]] [Hq [sq [Hinq Hsq]]].
  pose proof (Hp sq Hinq). pose proof (Hq sp Hinp). lra.
Qed.

Lemma np_max_abs_rev (y : list R) : np_max (np_abs (rev y)) = np_max (np_abs y).
Proof.
  destruct y as [|x xs]; [reflexivity|].
  destruct (np_max_abs_defined (x :: xs)) as [p Hp]; [discriminate|].
  destruct (np_max_abs_defined (rev (x :: xs))) as [q Hq].
  { intro E. apply (f_equal (@length R)) in E.
    rewrite length_rev in E. discriminate. }
  rewrite Hp, Hq. f_equal.
  apply (is_peak_unique (x :: xs)).
  - pose proof (np_max_abs_is_peak _ _ Hq) as [Hub [s [Hin Hs]]]. split.
    + intros z Hz. apply Hub. apply -> in_rev. exact Hz.
    + exists s. split; [apply in_rev; exact Hin | exact Hs].
  - apply np_max_abs_is_peak. exact Hp.
Qed.

Lemma np_abs_opp (y : list R) : np_abs (map Ropp y) = np_abs y.
Proof.
  unfold np_abs. rewrite map_map. apply map_ext. intro s. apply Rabs_Ropp.
Qed.

Lemma target_lt_1 (peak_db : R) : peak_db < 0 -> Rpower 10 (peak_db / 20) < 1.
Proof.
  intro Hdb. unfold Rpower.
  assert (Hln : 0 < ln 10).
  { rewrite <- ln_1. apply ln_increasing; lra. }
  rewrite <- exp_0. apply exp_increasing. nra.
Qed.

(** X3. Inverting the polarity of the input inverts the polarity of the
    output and nothing else. *)
Theorem normalize_audio_polarity (y : list R) (peak_db : R) :
  normalize_audio (map Ropp y) peak_db
  = rbind (normalize_audio y peak_db) (fun y' => Ok (map Ropp y')).
Proof.
  unfold normalize_audio. rewrite np_abs_opp.
  destruct (np_max (np_abs y)) as [p|e]; simpl; [|reflexivity].
  destruct (Req_dec_T p 0); simpl; [reflexivity|].
  f_equal. unfold np_scale. rewrite !map_map. apply map_ext. intro s. ring.
Qed.

(** X8. Normalizing commutes with playing the signal backwards: the peak
    does not depend on the order of the samples. *)
Theorem normalize_audio_rev (y : list R) (peak_db : R) :
  normalize_audio (rev y) peak_db
  = rbind (normalize_audio y peak_db) (fun y' => Ok (rev y')).
Proof.
  unfold normalize_audio. rewrite np_max_abs_rev.
  destruct (np_max (np_abs y)) as [p|e]; simpl; [|reflexivity].
  destruct (Req_dec_T p 0); simpl; [reflexivity|].
  f_equal. unfold np_scale. apply map_rev.
Qed.

(** ** Runs that raise *)

Lemma bind_raise_inv {A C : Type} (m : M A) (k : A -> M C) tr tr' e :
  bind m k tr = (tr', Raise e) ->
  m tr = (tr', Raise e)
  \/ exists a tr1, m tr = (tr1, Ok a) /\ k a tr1 = (tr', Raise e).
Proof.
  unfold bind. destruct (m tr) as [tr1 [a|e1]]; intro H.
  - right. eauto.
  - left. injection H as -> ->. reflexivity.
Qed.

Lemma call_raise_inv {A : Type} (ev : event) (r : result A) tr tr' e :
  call ev r tr = (tr', Raise e) -> r = Raise e /\ tr' = tr ++ [ev].
Proof. unfold call. intro H. injection H as <- ->. auto. Qed.

Section Failures.

Context {B : Backend}.

Lemma speed_stage_ok (y y1 : list R) (s : R) tr tr1 :
  (if Req_dec_T s 1 then ret y else change_speed y s) tr = (tr1, Ok y1) ->
  (if Req_dec_T s 1 then y1 = y else librosa_time_stretch y s = Ok y1)
  /\ tr1 = tr ++ (if Req_dec_T s 1 then [] else [EvTimeStretch y s]).
Proof.
  destruct (Req_dec_T s 1); intro H.
  - apply ret_ok_inv in H. destruct H as [-> ->]. rewrite app_nil_r. auto.
  - apply call_ok_inv in H. exact H.
Qed.

Lemma pitch_stage_ok (y y2 : list R) (sr n : Z) tr tr1 :
  (if Z.eq_dec n 0 then ret y else change_pitch y sr n) tr = (tr1, Ok y2) ->
  (if Z.eq_dec n 0 then y2 = y else librosa_pitch_shift y sr n = Ok y2)
  /\ tr1 = tr ++ (if Z.eq_dec n 0 then [] else [EvPitchShift y sr n]).
Proof.
  destruct (Z.eq_dec n 0); intro H.
  - apply ret_ok_inv in H. destruct H as [-> ->]. rewrite app_nil_r. auto.
  - apply call_ok_inv in H. exact H.
Qed.

Lemma norm_stage_ok (y y3 : list R) (norm : bool) tr tr1 :
  (if norm then lift (normalize_audio y default_peak_db) else ret y) tr
  = (tr1, Ok y3) ->
  (if norm then normalize_audio y default_peak_db = Ok y3 else y3 = y)
  /\ tr1 = tr.
Proof.
  destruct norm; intro H.
  - apply lift_ok_inv in H. exact H.
  - apply ret_ok_inv in H. exact H.
Qed.

(** Where a run can raise, and the calls made by then. *)
Lemma trasposa_raise_inv p n s (norm : bool) o tr tr' e :
  trasposa p n s norm o tr = (tr', Raise e) ->
  (librosa_load p = Raise e /\ tr' = tr ++ [EvLoad p])
  \/ (exists y0 sr,
        librosa_load p = Ok (y0, sr)
        /\ librosa_time_stretch y0 s = Raise e
        /\ tr' = tr ++ [EvLoad p] ++ [EvTimeStretch y0 s])
  \/ (exists y0 sr y1 pre,
        librosa_load p = Ok (y0, sr)
        /\ librosa_pitch_shift y1 sr n = Raise e
        /\ filter is_output pre = []
        /\ tr' = tr ++ pre ++ [EvPitchShift y1 sr n])
  \/ (exists y2 pre,
        norm = true
        /\ normalize_audio y2 default_peak_db = Raise e
        /\ filter is_output pre = []
        /\ tr' = tr ++ pre)
  \/ (exists y3 sr pre,
        output_result o y3 sr = Raise e
        /\ filter is_output pre = []
        /\ tr' = tr ++ pre ++ [output_event o y3 sr]).
Proof.
  intro H. unfold trasposa in H.
  apply bind_raise_inv in H. destruct H as [H | ([y0 sr] & t1 & H1 & H)].
  { left. apply call_raise_inv in H. exact H. }
  apply call_ok_inv in H1. destruct H1 as [Hload ->].
  apply bind_raise_inv in H. destruct H as [H | (y1 & t2 & H2 & H)].
  { right; left. exists y0, sr. split; [exact Hload|].
    destruct (Req_dec_T s 1).
    - unfold ret in H. discriminate.
    - apply call_raise_inv in H. destruct H as [H ->].
      rewrite <- app_assoc. auto. }
  apply speed_stage_ok in H2. destruct H2 as [_ ->].
  set (evs := if Req_dec_T s 1 then [] else [EvTimeStretch y0 s]) in *.
  assert (Hevs : filter is_output evs = []).
  { unfold evs. destruct (Req_dec_T s 1); reflexivity. }
  apply bind_raise_inv in H. destruct H as [H | (y2 & t3 & H3 & H)].
  { right; right; left. exists y0, sr, y1, ([EvLoad p] ++ evs).
    split; [exact Hload|].
    destruct (Z.eq_dec n 0).
    - unfold ret in H. discriminate.
    - apply call_raise_inv in H. destruct H as [H ->].
      split; [exact H|]. split.
      + rewrite filter_app, Hevs. reflexivity.
      + rewrite <- !app_assoc. reflexivity. }
  apply pitch_stage_ok in H3. destruct H3 as [_ ->].
  set (evp := if Z.eq_dec n 0 then [] else [EvPitchShift y1 sr n]) in *.
  assert (Hevp : filter is_output evp = []).
  { unfold evp. destruct (Z.eq_dec n 0); reflexivity. }
  assert (Hpre : filter is_output ([EvLoad p] ++ evs ++ evp) = []).
  { rewrite !filter_app, Hevs, Hevp. reflexivity. }
  apply bind_raise_inv in H. destruct H as [H | (y3 & t4 & H4 & H)].
  { right; right; right; left. exists y2, ([EvLoad p] ++ evs ++ evp).
    destruct norm.
    - unfold lift in H. injection H as <- H.
      split; [reflexivity|]. split; [exact H|]. split; [exact Hpre|].
      rewrite <- !app_assoc. reflexivity.
    - unfold ret in H. discriminate. }
  apply norm_stage_ok in H4. destruct H4 as [_ ->].
  apply bind_raise_inv in H. destruct H as [H | (u & t5 & H5 & H)].
  { right; right; right; right. exists y3, sr, ([EvLoad p] ++ evs ++ evp).
    assert (Hout : output_result o y3 sr = Raise e
                   /\ tr' = (((tr ++ [EvLoad p]) ++ evs) ++ evp)
                            ++ [output_event o y3 sr]).
    { unfold output_result, output_event.
      destruct (truthy o); apply call_raise_inv in H; exact H. }
    destruct Hout as [Hout ->].
    split; [exact Hout|]. split; [exact Hpre|].
    rewrite <- !app_assoc. reflexivity. }
  unfold ret in H. discriminate.
Qed.

End Failures.

Lemma filter_output_output o y sr :
  filter is_output [output_event o y sr] = [output_event o y sr].
Proof. unfold output_event. destruct (truthy o); reflexivity. Qed.

Lemma output_event_cases o y sr :
  (exists q, o = Some q /\ q <> EmptyString /\ output_event o y sr = EvSave q y sr)
  \/ ((o = None \/ o = Some EmptyString) /\ output_event o y sr = EvPlay y sr).
Proof.
  unfold output_event. destruct o as [[|c q]|]; simpl.
  - right. auto.
  - left. exists (String c q). repeat split. discriminate.
  - right. auto.
Qed.

Lemma demo_missing_file_run :
  trasposa (B := demo) "missing.wav" 0 1 true None []
  = ([EvLoad "missing.wav"], Raise (OtherError "no such file")).
Proof. reflexivity. Qed.

Lemma disk_full_run :
  trasposa (B := disk_full) "tone.wav" 0 1 false (Some "out.wav"%string) []
  = ([EvLoad "tone.wav"; EvSave "out.wav" tone 44100],
     Raise (OtherError "disk full")).
Proof.
  unfold trasposa, bind, load_audio, save_audio, call, ret. simpl.
  destruct (Req_dec_T 1 1); [|congruence]. reflexivity.
Qed.

(** X9. A run that raises has saved and played nothing, unless it is the
    save or the playback itself that raised: nothing is ever written from
    a run that failed earlier. *)
Theorem failed_run_outputs_nothing {B : Backend} p n s (norm : bool) o
    tr tr' e :
  trasposa p n s norm o tr = (tr', Raise e) ->
  filter is_output tr' = filter is_output tr
  \/ exists y sr,
       output_result o y sr = Raise e
       /\ filter is_output tr' = filter is_output tr ++ [output_event o y sr].
Proof.
  intro H. apply trasposa_raise_inv in H.
  destruct H as [[_ ->] | [(y0 & sr & _ & _ & ->)
    | [(y0 & sr & y1 & pre & _ & _ & Hpre & ->)
    | [(y2 & pre & _ & _ & Hpre & ->)
    | (y3 & sr & pre & Hout & Hpre & ->)]]]].
  - left. rewrite filter_app. simpl. apply app_nil_r.
  - left. rewrite !filter_app. simpl. apply app_nil_r.
  - left. rewrite !filter_app, Hpre. simpl. apply app_nil_r.
  - left. rewrite filter_app, Hpre. apply app_nil_r.
  - right. exists y3, sr. split; [exact Hout|].
    rewrite !filter_app, Hpre, filter_output_output. reflexivity.
Qed.

Lemma failed_run_outputs_nothing_witness :
  filter is_output [EvLoad "missing.wav"] = filter is_output []
  \/ exists y sr,
       output_result (B := demo) None y sr
       = Raise (OtherError "no such file")
       /\ filter is_output [EvLoad "missing.wav"]
          = filter is_output [] ++ [output_event None y sr].
Proof.
  exact (failed_run_outputs_nothing (B := demo) "missing.wav" 0 1 true None
           [] _ _ demo_missing_file_run).
Defined.

(** X10. A run raises for one of two reasons only: a library call raised,
    and it is the last call of the trace; or normalization is on and the
    signal that reached the normalizer is empty, which gives [ValueError]
    with nothing saved or played. *)
Theorem run_failure_cases {B : Backend} p n s (norm : bool) o tr tr' e :
  trasposa p n s norm o tr = (tr', Raise e) ->
  (exists pre ev, tr' = tr ++ pre ++ [ev] /\ raised ev e)
  \/ (norm = true /\ e = ValueError
      /\ filter is_output tr' = filter is_output tr).
Proof.
  intro H. apply trasposa_raise_inv in H.
  destruct H as [[Hl ->] | [(y0 & sr & _ & Hs & ->)
    | [(y0 & sr & y1 & pre & _ & Hp & _ & ->)
    | [(y2 & pre & Hn & Hy & Hpre & ->)
    | (y3 & sr & pre & Hout & _ & ->)]]]].
  - left. exists [], (EvLoad p). split; [reflexivity | exact Hl].
  - left. exists [EvLoad p], (EvTimeStretch y0 s). split; [reflexivity | exact Hs].
  - left. exists pre, (EvPitchShift y1 sr n). split; [reflexivity | exact Hp].
  - right. split; [exact Hn|]. split.
    + destruct y2 as [|x xs].
      * injection Hy as <-. reflexivity.
      * destruct (normalize_audio_defined (x :: xs) default_peak_db)
          as [y' Hy']; [discriminate|].
        rewrite Hy' in Hy. discriminate.
    + rewrite filter_app, Hpre. apply app_nil_r.
  - left. exists pre, (output_event o y3 sr). split; [reflexivity|].
    unfold output_result, output_event in *.
    destruct (truthy o); exact Hout.
Qed.

Lemma run_failure_cases_witness :
  (exists pre ev,
     [EvLoad "tone.wav"; EvSave "out.wav" tone 44100] = [] ++ pre ++ [ev]
     /\ raised (B := disk_full) ev (OtherError "disk full"))
  \/ (false = true /\ OtherError "disk full" = ValueError
      /\ filter is_output [EvLoad "tone.wav"; EvSave "out.wav" tone 44100]
         = filter is_output []).
Proof.
  exact (run_failure_cases (B := disk_full) "tone.wav" 0 1 false
           (Some "out.wav"%string) [] _ _ disk_full_run).
Defined.

(** X11. A run that succeeds saves or plays exactly once, as its last
    call, and what it saves or plays is the signal and the rate it
    returns: a save to [output_path] when that is a non-empty string, a
    playback when it is [None] or empty. *)
Theorem output_once_and_last {B : Backend} p n s (norm : bool) o
    tr tr' y' sr' :
  trasposa p n s norm o tr = (tr', Ok (y', sr')) ->
  exists pre last,
    tr' = tr ++ pre ++ [last]
    /\ filter is_output pre = []
    /\ ((exists q, o = Some q /\ q <> EmptyString /\ last = EvSave q y' sr')
        \/ ((o = None \/ o = Some EmptyString) /\ last = EvPlay y' sr')).
Proof.
  intro H. apply trasposa_ok_inv in H.
  destruct H as (y0 & y1 & y2 & _ & _ & _ & _ & _ & ->).
  exists ([EvLoad p]
          ++ (if Req_dec_T s 1 then [] else [EvTimeStretch y0 s])
          ++ (if Z.eq_dec n 0 then [] else [EvPitchShift y1 sr' n])),
         (output_event o y' sr').
  split; [rewrite <- !app_assoc; reflexivity|]. split.
  - destruct (Req_dec_T s 1); destruct (Z.eq_dec n 0); reflexivity.
  - apply output_event_cases.
Qed.

Lemma output_once_and_last_witness :
  exists pre last,
    [EvLoad "tone.wav"; EvTimeStretch tone 2;
     EvPitchShift [1; / 2] 44100 3; EvPlay [1; / 2] 44100]
    = [] ++ pre ++ [last]
    /\ filter is_output pre = []
    /\ ((exists q, None = Some q /\ q <> EmptyString
                   /\ last = EvSave q [1; / 2] 44100)
        \/ ((@None string = None \/ None = Some EmptyString)
            /\ last = EvPlay [1; / 2] 44100)).
Proof.
  exact (output_once_and_last (B := demo) "tone.wav" 3 2 false None
           [] _ _ _ demo_stretch_pitch_run).
Defined.

(** ** Runs that succeed *)

(** X13. The command line with only an input file: no transform is
    called, the loaded signal is normalized to -1 dBFS and played, nothing
    is saved, and [main] returns [None]. *)
Theorem main_default_run {B : Backend} p tr y0 sr0 :
  librosa_load p = Ok (y0, sr0) ->
  y0 <> [] ->
  exists y',
    normalize_audio y0 (-1) = Ok y'
    /\ (sd_playback y' sr0 = Ok tt ->
        main (default_args p) tr = (tr ++ [EvLoad p; EvPlay y' sr0], Ok tt)).
Proof.
  intros Hload Hy.
  destruct (normalize_audio_defined y0 (-1) Hy) as [y' Hn].
  exists y'. split; [exact Hn|]. intro Hplay.
  unfold main, default_args, bind. simpl.
  rewrite (trasposa_run p 0 1 true None tr y0 y0 y0 y' sr0); auto.
  - destruct (Req_dec_T 1 1); [|congruence].
    destruct (Z.eq_dec 0 0); [|congruence]. reflexivity.
  - destruct (Req_dec_T 1 1); congruence.
  - destruct (Z.eq_dec 0 0); congruence.
Qed.

Lemma main_default_run_witness :
  exists y',
    normalize_audio tone (-1) = Ok y'
    /\ (@sd_playback demo y' 44100 = Ok tt ->
        main (B := demo) (default_args "tone.wav") []
        = ([] ++ [EvLoad "tone.wav"; EvPlay y' 44100], Ok tt)).
Proof.
  apply (main_default_run (B := demo) "tone.wav" [] tone 44100).
  - reflexivity.
  - discriminate.
Defined.

(** X14. With normalization on, a run whose transforms leave no sample
    (a short signal stretched by a large rate, say) raises [ValueError]
    after the transforms, and saves and plays nothing. *)
Theorem empty_transformed_signal_raises {B : Backend} p n s o tr y0 y1 sr :
  librosa_load p = Ok (y0, sr) ->
  (if Req_dec_T s 1 then y1 = y0 else librosa_time_stretch y0 s = Ok y1) ->
  (if Z.eq_dec n 0 then y1 = [] else librosa_pitch_shift y1 sr n = Ok []) ->
  trasposa p n s true o tr
  = (tr ++ [EvLoad p]
        ++ (if Req_dec_T s 1 then [] else [EvTimeStretch y0 s])
        ++ (if Z.eq_dec n 0 then [] else [EvPitchShift y1 sr n]),
     Raise ValueError).
Proof.
  intros Hload Hs Hp.
  unfold trasposa, bind, load_audio, change_speed, change_pitch,
    call, lift, ret.
  rewrite Hload.
  destruct (Req_dec_T s 1); destruct (Z.eq_dec n 0);
    subst; try rewrite Hs; try rewrite Hp; simpl;
    rewrite <- ?app_assoc, ?app_nil_r; reflexivity.
Qed.

Lemma hold_stretch_tone_100 : hold_stretch tone 100 = Ok [].
Proof.
  unfold hold_stretch. destruct (Rle_dec 100 0); [lra|].
  assert (Hlen : nearest_len (length tone) 100 = 0%nat).
  { unfold nearest_len.
    replace (up (INR (length tone) / 100 - / 2)) with 0%Z; [reflexivity|].
    apply tech_up; simpl; lra. }
  rewrite Hlen. reflexivity.
Qed.

Lemma empty_transformed_signal_raises_witness :
  trasposa (B := demo) "tone.wav" 0 100 true None []
  = ([] ++ [EvLoad "tone.wav"]
        ++ (if Req_dec_T 100 1 then [] else [EvTimeStretch tone 100])
        ++ (if Z.eq_dec 0 0 then [] else [EvPitchShift [] 44100 0]),
     Raise ValueError).
Proof.
  apply (empty_transformed_signal_raises (B := demo) "tone.wav" 0 100 None
           [] tone [] 44100).
  - reflexivity.
  - destruct (Req_dec_T 100 1); [lra | exact hold_stretch_tone_100].
  - destruct (Z.eq_dec 0 0); [reflexivity | congruence].
Defined.

(** X15. A pitch shift alone keeps the duration: at speed 1, when
    librosa's pitch shift keeps the length, the returned signal has
    exactly as many samples as the loaded one. *)
Theorem pitch_only_keeps_length {B : Backend} p n (norm : bool) o
    tr tr' y0 sr0 y' sr' :
  pitch_length_law B ->
  librosa_load p = Ok (y0, sr0) ->
  trasposa p n 1 norm o tr = (tr', Ok (y', sr')) ->
  length y' = length y0.
Proof.
  intros Hpitch Hload H. apply trasposa_ok_inv in H.
  destruct H as (z0 & y1 & y2 & Hload' & H1 & H2 & H3 & _ & _).
  rewrite Hload in Hload'. injection Hload' as <- <-.
  destruct (Req_dec_T 1 1); [subst y1 | congruence].
  assert (L2 : length y2 = length y0).
  { destruct (Z.eq_dec n 0); [congruence | apply (Hpitch _ _ _ _ H2)]. }
  destruct norm; [|congruence].
  rewrite (normalize_audio_length _ _ _ H3). exact L2.
Qed.

Lemma demo_pitch_only_run :
  trasposa (B := demo) "tone.wav" 3 1 false None []
  = ([EvLoad "tone.wav"; EvPitchShift tone 44100 3; EvPlay tone 44100],
     Ok (tone, 44100%Z)).
Proof.
  rewrite (trasposa_run (B := demo) "tone.wav" 3 1 false None []
             tone tone tone tone 44100).
  - destruct (Req_dec_T 1 1); [|congruence].
    destruct (Z.eq_dec 3 0); [discriminate | reflexivity].
  - reflexivity.
  - destruct (Req_dec_T 1 1); congruence.
  - destruct (Z.eq_dec 3 0); [discriminate | reflexivity].
  - reflexivity.
  - reflexivity.
Qed.

Lemma pitch_only_keeps_length_witness : length tone = length tone.
Proof.
  exact (pitch_only_keeps_length (B := demo) "tone.wav" 3 false None
           [] _ tone 44100 tone 44100 demo_pitch_length
           demo_load_tone demo_pitch_only_run).
Defined.

(** ** Silence through the small backend *)

Lemma silent_nth (y : list R) (i : nat) : silent y -> nth i y 0 = 0.
Proof.
  intro Hs. destruct (nth_in_or_default i y 0) as [Hin | ->]; [|reflexivity].
  apply (proj1 (Forall_forall _ _) Hs). exact Hin.
Qed.

Lemma quiet_keeps_silence : transforms_keep_silence quiet.
Proof.
  split.
  - intros y rate y' Hs H. simpl in H. unfold hold_stretch in H.
    destruct (Rle_dec rate 0); [discriminate|]. injection H as <-.
    apply Forall_forall. intros x Hx. apply in_map_iff in Hx.
    destruct Hx as [i [<- _]]. apply silent_nth. exact Hs.
  - intros y sr n y' Hs H. simpl in H. injection H as <-. exact Hs.
Qed.

Lemma quiet_run :
  trasposa (B := quiet) "room.wav" 2 1 true None []
  = ([EvLoad "room.wav"; EvPitchShift [0; 0; 0] 8000 2; EvPlay [0; 0; 0] 8000],
     Ok ([0; 0; 0], 8000%Z)).
Proof.
  assert (Hsil : silent [0; 0; 0]) by (repeat constructor).
  rewrite (trasposa_run (B := quiet) "room.wav" 2 1 true None []
             [0; 0; 0] [0; 0; 0] [0; 0; 0] [0; 0; 0] 8000).
  - destruct (Req_dec_T 1 1); [|congruence].
    destruct (Z.eq_dec 2 0); [discriminate | reflexivity].
  - reflexivity.
  - destruct (Req_dec_T 1 1); congruence.
  - destruct (Z.eq_dec 2 0); [discriminate | reflexivity].
  - apply normalize_audio_silence; [discriminate | exact Hsil].
  - reflexivity.
Qed.

Lemma silence_preserved_witness : silent [0; 0; 0].
Proof.
  assert (Hsil : silent [0; 0; 0]) by (repeat constructor).
  exact (silence_preserved (B := quiet) "room.wav" 2 1 true None
           [] _ [0; 0; 0] 8000 [0; 0; 0] 8000 quiet_keeps_silence
           eq_refl Hsil quiet_run).
Defined.

(** ** The key handler *)

Lemma lower_ascii_q (a : ascii) :
  lower_ascii a = "q"%char -> a = "q"%char \/ a = "Q"%char.
Proof.
  destruct a as [b0 b1 b2 b3 b4 b5 b6 b7].
  destruct b0, b1, b2, b3, b4, b5, b6, b7; vm_compute; intro H;
    first [discriminate H | left; reflexivity | right; reflexivity].
Qed.

Lemma lower_q (c : string) :
  lower c = "q"%string -> c = "q"%string \/ c = "Q"%string.
Proof.
  destruct c as [|a rest]; simpl; [discriminate|].
  intro H. injection H as Ha Hrest.
  destruct rest; [|discriminate].
  destruct (lower_ascii_q a Ha) as [-> | ->]; auto.
Qed.

(** X17. Only the letter q stops the playback, in either case: on q or Q
    the handler calls [sd.stop()] and returns [False], which ends the
    listener; on any other character, on a key event without character
    and on a special key it does nothing and keeps listening, the
    [AttributeError] of a special key being caught. *)
Theorem on_press_stops_only_on_q (k : key) :
  (on_press k = ([SdStop], Some false)
   <-> k = KeyCode (Some "q"%string) \/ k = KeyCode (Some "Q"%string))
  /\ (on_press k = ([SdStop], Some false) \/ on_press k = ([], None)).
Proof.
  split; [split|].
  - destruct k as [[c|]|name]; simpl; try discriminate.
    destruct (negb (String.eqb c EmptyString) && String.eqb (lower c) "q")
      eqn:E; [|discriminate].
    intros _. apply andb_true_iff in E. destruct E as [_ E].
    apply String.eqb_eq in E.
    destruct (lower_q c E) as [-> | ->]; auto.
  - intros [-> | ->]; reflexivity.
  - destruct k as [[c|]|name]; simpl; auto.
    destruct (negb (String.eqb c EmptyString) && String.eqb (lower c) "q");
      auto.
Qed.

(** * The normalizer within floating-point range *)

Lemma f32_unf_pos : 0 < f32_unf.
Proof. unfold f32_unf. lra. Qed.

Lemma one_in_range32 : in_range32 1.
Proof. unfold in_range32, f32_lo, f32_hi. lra. Qed.

Lemma in_range32_strict (r : R) : in_range32 r -> f32_unf < r < f32_ovf.
Proof. unfold in_range32, f32_lo, f32_hi, f32_unf, f32_ovf. lra. Qed.

Lemma f32_unf_lt_lo : f32_unf < f32_lo.
Proof. unfold f32_lo, f32_unf. lra. Qed.

Lemma f32_within_f64 : f64_unf < f32_unf /\ f32_ovf < f64_ovf.
Proof. unfold f64_unf, f32_unf, f32_ovf, f64_ovf. lra. Qed.

Lemma round32_flush (r : R) : Rabs r < f32_ovf -> round32 r = Fin (flush32 r).
Proof.
  intro H. unfold round32, flush32.
  destruct (Rle_dec f32_ovf (Rabs r)); [lra|].
  destruct (Rle_dec (Rabs r) f32_unf); reflexivity.
Qed.

Lemma flush32_keeps (r : R) : f32_unf < Rabs r -> flush32 r = r.
Proof.
  intro H. unfold flush32. destruct (Rle_dec (Rabs r) f32_unf); [lra | reflexivity].
Qed.

Lemma flush32_0 : flush32 0 = 0.
Proof. unfold flush32. destruct (Rle_dec (Rabs 0) f32_unf); reflexivity. Qed.

Lemma flush32_le (r : R) : Rabs (flush32 r) <= Rabs r.
Proof.
  unfold flush32. destruct (Rle_dec (Rabs r) f32_unf); [|lra].
  rewrite Rabs_R0. apply Rabs_pos.
Qed.

Lemma flush32_idem (r : R) : flush32 (flush32 r) = flush32 r.
Proof.
  destruct (Rle_dec (Rabs r) f32_unf) as [H|H].
  - assert (E : flush32 r = 0).
    { unfold flush32. destruct (Rle_dec (Rabs r) f32_unf); [reflexivity | lra]. }
    rewrite E. apply flush32_0.
  - rewrite !(flush32_keeps r) by lra. reflexivity.
Qed.

Lemma round32_in_range (r : R) : in_range32 r -> round32 r = Fin r.
Proof.
  intro H. apply in_range32_strict in H. destruct H as [Hlo Hhi].
  pose proof f32_unf_pos.
  assert (Habs : Rabs r = r) by (apply Rabs_right; lra).
  rewrite round32_flush by lra. rewrite flush32_keeps by lra. reflexivity.
Qed.

Lemma py_pow10_in_range (x : R) :
  in_range32 (Rpower 10 x) -> py_pow10 x = Ok (Rpower 10 x).
Proof.
  intro H. apply in_range32_strict in H. destruct H as [Hlo Hhi].
  destruct f32_within_f64 as [Hu Ho]. unfold py_pow10.
  destruct (Rle_dec f64_ovf (Rpower 10 x)); [lra|].
  destruct (Rle_dec (Rpower 10 x) f64_unf); [lra | reflexivity].
Qed.

Lemma fold_fmax_fin (xs : list R) (a : R) :
  fold_left fmax (map Fin xs) (Fin a) = Fin (fold_left Rmax xs a).
Proof.
  revert a; induction xs as [|x xs IH]; intro a; simpl; [reflexivity | apply IH].
Qed.

Lemma np_max_f_fin (ys : list R) :
  np_max_f (np_abs_f (map Fin ys))
  = rbind (np_max (np_abs ys)) (fun p => Ok (Fin p)).
Proof.
  destruct ys as [|y ys]; [reflexivity|].
  unfold np_abs_f, np_abs. simpl. f_equal.
  rewrite map_map.
  rewrite <- (map_map Rabs Fin). apply fold_fmax_fin.
Qed.

Lemma is_peak_np_max (ys : list R) (p : R) :
  is_peak ys p -> np_max (np_abs ys) = Ok p.
Proof.
  intro Hp. assert (Hne : ys <> []).
  { destruct Hp as [_ [s [Hin _]]]. intros ->. contradiction. }
  destruct (np_max_abs_defined ys Hne) as [q Hq]. rewrite Hq. f_equal.
  apply (is_peak_unique ys); [apply np_max_abs_is_peak; exact Hq | exact Hp].
Qed.

(** The two branches on a signal of finite samples. *)
Lemma normalize_audio_f32_silent (ys : list R) (peak_db : R) :
  is_peak ys 0 -> normalize_audio_f32 (map Fin ys) peak_db = Ok (map Fin ys).
Proof.
  intro Hp. unfold normalize_audio_f32.
  rewrite np_max_f_fin, (is_peak_np_max ys 0 Hp). simpl.
  destruct (Req_dec_T 0 0); [reflexivity | congruence].
Qed.

Lemma normalize_audio_f32_scaled (ys : list R) (peak_db peak : R) :
  is_peak ys peak -> peak <> 0 ->
  in_range32 (Rpower 10 (peak_db / 20)) ->
  in_range32 (Rpower 10 (peak_db / 20) / peak) ->
  normalize_audio_f32 (map Fin ys) peak_db
  = Ok (map Fin
          (map (fun s => flush32 (s * (Rpower 10 (peak_db / 20) / peak))) ys)).
Proof.
  intros Hp Hnz Ht Hg. unfold normalize_audio_f32.
  rewrite np_max_f_fin, (is_peak_np_max ys peak Hp). simpl.
  destruct (Req_dec_T peak 0); [contradiction|].
  rewrite (py_pow10_in_range _ Ht). unfold rbind.
  rewrite (round32_in_range _ Ht). unfold fdiv32.
  destruct (Req_dec_T peak 0); [contradiction|].
  rewrite (round32_in_range _ Hg).
  f_equal. rewrite !map_map. apply map_ext_in. intros s Hin. unfold fmul32.
  apply round32_flush.
  pose proof (is_peak_nonneg ys peak Hp) as Hpos.
  destruct Hp as [Hub _]. specialize (Hub s Hin).
  apply in_range32_strict in Ht. apply in_range32_strict in Hg.
  destruct Ht as [_ Ht]. destruct Hg as [Hg _]. pose proof f32_unf_pos.
  set (g := Rpower 10 (peak_db / 20) / peak) in *.
  rewrite Rabs_mult, (Rabs_right g) by lra.
  apply Rle_lt_trans with (peak * g).
  - apply Rmult_le_compat_r; lra.
  - replace (peak * g) with (Rpower 10 (peak_db / 20)); [exact Ht|].
    unfold g. field. exact Hnz.
Qed.

Lemma flushed_peak (ys : list R) (peak t : R) :
  is_peak ys peak -> peak <> 0 -> f32_unf < t -> 0 < t / peak ->
  is_peak (map (fun s => flush32 (s * (t / peak))) ys) t.
Proof.
  intros Hp Hnz Ht Hg.
  pose proof (is_peak_nonneg ys peak Hp) as Hpos.
  destruct Hp as [Hub [s0 [Hin0 Hs0]]].
  set (g := t / peak) in *.
  assert (Hpg : peak * g = t) by (unfold g; field; exact Hnz).
  split.
  - intros z Hz. apply in_map_iff in Hz. destruct Hz as [s [<- Hin]].
    eapply Rle_trans; [apply flush32_le|].
    rewrite Rabs_mult, (Rabs_right g) by lra.
    rewrite <- Hpg. apply Rmult_le_compat_r; [lra | apply Hub; exact Hin].
  - exists (flush32 (s0 * g)). split.
    + apply in_map_iff. exists s0. auto.
    + assert (Habs : Rabs (s0 * g) = t).
      { rewrite Rabs_mult, (Rabs_right g) by lra. rewrite Hs0. exact Hpg. }
      rewrite flush32_keeps by lra. exact Habs.
Qed.

(** ** Concrete targets and signals *)

Lemma default_target_bounds : / 2 < Rpower 10 (-1 / 20) < 1.
Proof.
  split; [|apply target_lt_1; lra].
  replace (-1 / 20) with (- (1 / 20)) by field. rewrite Rpower_Ropp.
  assert (Hx : 0 < Rpower 10 (1 / 20)) by (unfold Rpower; apply exp_pos).
  assert (Hlt : Rpower 10 (1 / 20) < 2).
  { destruct (Rlt_le_dec (Rpower 10 (1 / 20)) 2) as [H|H]; [exact H|].
    assert (H20 : Rpower 2 20 <= Rpower (Rpower 10 (1 / 20)) 20).
    { apply Rle_Rpower_l; lra. }
    rewrite Rpower_mult in H20.
    replace (1 / 20 * 20) with 1 in H20 by field.
    rewrite Rpower_1 in H20 by lra.
    replace 20 with (INR 20) in H20 at 1 by (simpl; lra).
    rewrite Rpower_pow in H20 by lra. lra. }
  apply Rinv_lt_contravar in Hlt; [exact Hlt | lra].
Qed.

Lemma default_target_in_range : in_range32 (Rpower 10 (-1 / 20)).
Proof.
  pose proof default_target_bounds. unfold in_range32, f32_lo, f32_hi. lra.
Qed.

Lemma huge_target_overflows : f64_ovf <= Rpower 10 (20000 / 20).
Proof.
  replace (20000 / 20) with (INR 1000).
  - rewrite Rpower_pow by lra. unfold f64_ovf. lra.
  - rewrite INR_IZR_INZ. simpl. lra.
Qed.

Lemma is_peak_tone : is_peak tone 2.
Proof.
  unfold tone. split.
  - intros s [<- | [<- | [<- | [<- | []]]]]; apply Rabs_le; lra.
  - exists (-2). split; [simpl; auto|].
    unfold Rabs. destruct (Rcase_abs (-2)); lra.
Qed.

Lemma tiny32_pos : 0 < tiny32.
Proof. unfold tiny32. lra. Qed.

Lemma is_peak_subnormal : is_peak [tiny32; 0] tiny32.
Proof.
  pose proof tiny32_pos. split.
  - intros s [<- | [<- | []]]; apply Rabs_le; lra.
  - exists tiny32. split; [simpl; auto | apply Rabs_right; lra].
Qed.

(** The smallest positive float32 beside a zero sample, at the default
    target: the gain overflows. *)
Lemma subnormal_run :
  normalize_audio_f32 [Fin tiny32; Fin 0] (-1) = Ok [Inf false; NaN].
Proof.
  pose proof tiny32_pos as Htiny. pose proof default_target_bounds as [Hlo Hhi].
  change [Fin tiny32; Fin 0] with (map Fin [tiny32; 0]).
  unfold normalize_audio_f32.
  rewrite np_max_f_fin, (is_peak_np_max _ _ is_peak_subnormal).
  unfold rbind, is_zero.
  destruct (Req_dec_T tiny32 0); [lra|].
  rewrite (py_pow10_in_range _ default_target_in_range).
  rewrite (round32_in_range _ default_target_in_range).
  unfold fdiv32. destruct (Req_dec_T tiny32 0); [lra|].
  set (t := Rpower 10 (-1 / 20)) in *.
  assert (Hq : t / tiny32 = t * 2 ^ 149) by (unfold tiny32; field; lra).
  assert (Hbig : f32_ovf <= t / tiny32).
  { rewrite Hq. unfold f32_ovf. assert (2 ^ 149 = 2 ^ 128 * 2 ^ 21) by lra. nra. }
  assert (Hqpos : 0 < t / tiny32).
  { unfold f32_ovf in Hbig. lra. }
  assert (Hg : round32 (t / tiny32) = Inf false).
  { unfold round32, negative. rewrite (Rabs_right (t / tiny32)) by lra.
    destruct (Rle_dec f32_ovf (t / tiny32)); [|lra].
    destruct (Rlt_dec (t / tiny32) 0); [lra | reflexivity]. }
  rewrite Hg. simpl. unfold negative.
  destruct (Req_dec_T tiny32 0); [lra|].
  destruct (Rlt_dec tiny32 0); [lra|].
  destruct (Req_dec_T 0 0); [reflexivity | congruence].
Qed.

Lemma subnormal_second_run :
  normalize_audio_f32 [Inf false; NaN] (-1) = Ok [NaN; NaN].
Proof.
  unfold normalize_audio_f32. simpl.
  rewrite (py_pow10_in_range _ default_target_in_range). simpl.
  rewrite (round32_in_range _ default_target_in_range). reflexivity.
Qed.

(** ** The normalizer's guarantees, where they hold *)

(** C1, as the counterexample to the claim as stated: a target of 20000 dB
    on a one-sample signal raises [OverflowError] instead of scaling. *)
Lemma normalize_audio_f32_overflow :
  normalize_audio_f32 [Fin 1] 20000 = Raise OverflowError.
Proof.
  unfold normalize_audio_f32. simpl. unfold is_zero.
  destruct (Req_dec_T (Rabs 1) 0) as [E|_].
  { rewrite Rabs_R1 in E. lra. }
  unfold py_pow10.
  destruct (Rle_dec f64_ovf (Rpower 10 (20000 / 20))) as [_|H];
    [reflexivity | destruct (H huge_target_overflows)].
Qed.

(** C1, amended.  For a signal of finite samples whose largest absolute
    value is [peak]: when [peak = 0] the normalizer returns the input
    unchanged; otherwise, when the target [10^(peak_db/20)] and the gain
    [10^(peak_db/20) / peak] are within float32 range, it multiplies every
    sample by the gain (a product too small for float32 becoming zero) and
    the largest absolute value of the result is [10^(peak_db/20)]. *)
Theorem normalize_audio_f32_peak (ys : list R) (peak_db peak : R) :
  is_peak ys peak ->
  (peak = 0 -> normalize_audio_f32 (map Fin ys) peak_db = Ok (map Fin ys))
  /\ (peak <> 0 ->
      in_range32 (Rpower 10 (peak_db / 20)) ->
      in_range32 (Rpower 10 (peak_db / 20) / peak) ->
      let gain := Rpower 10 (peak_db / 20) / peak in
      let ys' := map (fun s => flush32 (s * gain)) ys in
      normalize_audio_f32 (map Fin ys) peak_db = Ok (map Fin ys')
      /\ is_peak ys' (Rpower 10 (peak_db / 20))).
Proof.
  intro Hp. split.
  - intros ->. apply normalize_audio_f32_silent. exact Hp.
  - intros Hnz Ht Hg gain ys'. split.
    + apply (normalize_audio_f32_scaled ys peak_db peak Hp Hnz Ht Hg).
    + pose proof f32_unf_pos.
      apply (flushed_peak ys peak _ Hp Hnz);
        [apply (in_range32_strict _ Ht)
        | pose proof (in_range32_strict _ Hg); lra].
Qed.

Lemma normalize_audio_f32_peak_witness :
  is_peak tone 2
  /\ in_range32 (Rpower 10 (-1 / 20))
  /\ in_range32 (Rpower 10 (-1 / 20) / 2)
  /\ normalize_audio_f32 (map Fin tone) (-1)
     = Ok (map Fin (map (fun s => flush32 (s * (Rpower 10 (-1 / 20) / 2))) tone))
  /\ is_peak (map (fun s => flush32 (s * (Rpower 10 (-1 / 20) / 2))) tone)
             (Rpower 10 (-1 / 20)).
Proof.
  assert (Hg : in_range32 (Rpower 10 (-1 / 20) / 2)).
  { pose proof default_target_bounds. unfold in_range32, f32_lo, f32_hi. lra. }
  split; [exact is_peak_tone|]. split; [exact default_target_in_range|].
  split; [exact Hg|].
  apply (proj2 (normalize_audio_f32_peak tone (-1) 2 is_peak_tone));
    [lra | exact default_target_in_range | exact Hg].
Defined.

(** C5, as the counterexample to the claim as stated: on the smallest
    positive float32 beside a zero sample, one normalization to the default
    target gives [inf, nan] and a second one gives [nan, nan]. *)
Lemma normalize_audio_f32_twice_differs :
  normalize_audio_f32 [Fin tiny32; Fin 0] (-1) = Ok [Inf false; NaN]
  /\ rbind (normalize_audio_f32 [Fin tiny32; Fin 0] (-1))
           (fun y' => normalize_audio_f32 y' (-1))
     = Ok [NaN; NaN].
Proof.
  split; [exact subnormal_run|].
  rewrite subnormal_run. exact subnormal_second_run.
Qed.

(** C5, amended.  For a signal of finite samples whose target and gain
    are within float32 range when it is not silent, normalizing twice to
    the same target gives what normalizing once gives. *)
Theorem normalize_audio_f32_idempotent (ys : list R) (peak_db peak : R) :
  is_peak ys peak ->
  (peak <> 0 ->
   in_range32 (Rpower 10 (peak_db / 20))
   /\ in_range32 (Rpower 10 (peak_db / 20) / peak)) ->
  rbind (normalize_audio_f32 (map Fin ys) peak_db)
        (fun y' => normalize_audio_f32 y' peak_db)
  = normalize_audio_f32 (map Fin ys) peak_db.
Proof.
  intros Hp Hrange. destruct (Req_dec_T peak 0) as [-> | Hnz].
  - rewrite (normalize_audio_f32_silent ys peak_db Hp). unfold rbind.
    apply normalize_audio_f32_silent. exact Hp.
  - destruct (Hrange Hnz) as [Ht Hg]. pose proof f32_unf_pos as Hu.
    set (t := Rpower 10 (peak_db / 20)) in *.
    rewrite (normalize_audio_f32_scaled ys peak_db peak Hp Hnz Ht Hg).
    unfold rbind. fold t.
    assert (Hp' : is_peak (map (fun s => flush32 (s * (t / peak))) ys) t).
    { apply (flushed_peak ys peak t Hp Hnz);
        [apply (in_range32_strict _ Ht)
        | pose proof (in_range32_strict _ Hg); lra]. }
    assert (Htnz : t <> 0) by (pose proof (in_range32_strict _ Ht); lra).
    assert (Hone : in_range32 (t / t)).
    { replace (t / t) with 1 by (field; exact Htnz). exact one_in_range32. }
    rewrite (normalize_audio_f32_scaled _ peak_db t Hp' Htnz Ht Hone).
    fold t. f_equal. f_equal. rewrite map_map. apply map_ext. intro s.
    replace (flush32 (s * (t / peak)) * (t / t))
      with (flush32 (s * (t / peak))) by (field; exact Htnz).
    apply flush32_idem.
Qed.

Lemma normalize_audio_f32_idempotent_witness :
  rbind (normalize_audio_f32 (map Fin tone) (-1))
        (fun y' => normalize_audio_f32 y' (-1))
  = normalize_audio_f32 (map Fin tone) (-1).
Proof.
  apply (normalize_audio_f32_idempotent tone (-1) 2 is_peak_tone).
  intros _. split; [exact default_target_in_range|].
  pose proof default_target_bounds. unfold in_range32, f32_lo, f32_hi. lra.
Defined.

(** C7, as the counterexample to the claim as stated: on the same signal
    the output [inf, nan] is no real multiple of the input. *)
Lemma normalize_audio_f32_no_scalar_gain :
  ~ exists c : R,
      normalize_audio_f32 [Fin tiny32; Fin 0] (-1)
      = Ok (map (fun s => Fin (c * s)) [tiny32; 0]).
Proof.
  intros [c H]. rewrite subnormal_run in H. simpl in H. discriminate H.
Qed.

(** C7, amended.  For a signal of finite samples that is not silent, when
    the target, the gain and every product of a non-zero sample with the
    gain are within float32 range, the normalizer is one scalar gain
    [c > 0]: every output sample is [c] times the input sample at the same
    position. *)
Theorem normalize_audio_f32_linear_gain (ys : list R) (peak_db peak : R) :
  is_peak ys peak ->
  peak <> 0 ->
  in_range32 (Rpower 10 (peak_db / 20)) ->
  in_range32 (Rpower 10 (peak_db / 20) / peak) ->
  (forall s, In s ys -> s <> 0 ->
     f32_lo <= Rabs s * (Rpower 10 (peak_db / 20) / peak)) ->
  exists c,
    0 < c
    /\ normalize_audio_f32 (map Fin ys) peak_db
       = Ok (map (fun s => Fin (c * s)) ys).
Proof.
  intros Hp Hnz Ht Hg Hprod. pose proof f32_unf_pos as Hu.
  pose proof f32_unf_lt_lo as Hlo. pose proof (in_range32_strict _ Hg) as Hg'.
  exists (Rpower 10 (peak_db / 20) / peak).
  split; [lra|].
  rewrite (normalize_audio_f32_scaled ys peak_db peak Hp Hnz Ht Hg).
  f_equal. rewrite map_map. apply map_ext_in. intros s Hin. f_equal.
  set (g := Rpower 10 (peak_db / 20) / peak) in *.
  destruct (Req_dec_T s 0) as [-> | Hs].
  - rewrite Rmult_0_l, Rmult_0_r. apply flush32_0.
  - rewrite flush32_keeps; [ring|].
    rewrite Rabs_mult, (Rabs_right g) by lra.
    pose proof (Hprod s Hin Hs). lra.
Qed.

Lemma normalize_audio_f32_linear_gain_witness :
  exists c,
    0 < c
    /\ normalize_audio_f32 (map Fin tone) (-1)
       = Ok (map (fun s => Fin (c * s)) tone).
Proof.
  pose proof default_target_bounds as Hb.
  apply (normalize_audio_f32_linear_gain tone (-1) 2 is_peak_tone).
  - lra.
  - exact default_target_in_range.
  - unfold in_range32, f32_lo, f32_hi. lra.
  - unfold tone, f32_lo.
    intros s [<- | [<- | [<- | [<- | []]]]] Hs.
    + rewrite Rabs_R1. lra.
    + replace (Rabs (-2)) with 2
        by (unfold Rabs; destruct (Rcase_abs (-2)); lra).
      lra.
    + rewrite Rabs_right by lra. lra.
    + congruence.
Defined.

(** X1. On a signal of finite samples the normalizer raises in two cases
    only: [ValueError] on the empty array, and [OverflowError] on a signal
    that is not silent when [10^(peak_db/20)] is too large for a Python
    float.  Silence never raises, whatever the target. *)
Theorem normalize_audio_f32_raises (ys : list R) (peak_db : R) (e : exn) :
  normalize_audio_f32 (map Fin ys) peak_db = Raise e
  <-> (ys = [] /\ e = ValueError)
      \/ (~ silent ys /\ f64_ovf <= Rpower 10 (peak_db / 20)
          /\ e = OverflowError).
Proof.
  destruct ys as [|y ys].
  - split.
    + intro H. injection H as <-. auto.
    + intros [[_ ->] | [Hns _]]; [reflexivity|].
      destruct Hns. constructor.
  - destruct (np_max_abs_defined (y :: ys)) as [p Hp]; [discriminate|].
    pose proof (np_max_abs_is_peak _ _ Hp) as Hpk.
    unfold normalize_audio_f32. rewrite np_max_f_fin, Hp.
    unfold rbind, is_zero, py_pow10.
    destruct (Req_dec_T p 0) as [-> | Hnz].
    + split; [discriminate|].
      intros [[H _] | [Hns _]]; [discriminate|].
      destruct Hns. apply is_peak_zero_silent. exact Hpk.
    + destruct (Rle_dec f64_ovf (Rpower 10 (peak_db / 20))) as [Ho|Ho].
      * split.
        -- intro H. injection H as <-. right. split; [|auto].
           intro Hs. apply Hnz. apply (silent_peak_zero _ _ Hs Hpk).
        -- intros [[H _] | [_ [_ ->]]]; [discriminate | reflexivity].
      * destruct (Rle_dec (Rpower 10 (peak_db / 20)) f64_unf);
          (split; [discriminate|]);
          (intros [[H _] | [_ [Ho' _]]]; [discriminate | contradiction]).
Qed.

(** Within range the two views of the normalizer agree: the float32
    result is the exact result, sample by sample. *)
Lemma normalize_audio_f32_exact (ys : list R) (peak_db peak : R) :
  is_peak ys peak ->
  peak <> 0 ->
  in_range32 (Rpower 10 (peak_db / 20)) ->
  in_range32 (Rpower 10 (peak_db / 20) / peak) ->
  (forall s, In s ys -> s <> 0 ->
     f32_lo <= Rabs s * (Rpower 10 (peak_db / 20) / peak)) ->
  normalize_audio_f32 (map Fin ys) peak_db
  = rbind (normalize_audio ys peak_db) (fun y' => Ok (map Fin y')).
Proof.
  intros Hp Hnz Ht Hg Hprod. pose proof f32_unf_pos as Hu.
  pose proof f32_unf_lt_lo as Hlo. pose proof (in_range32_strict _ Hg) as Hg'.
  rewrite (normalize_audio_f32_scaled ys peak_db peak Hp Hnz Ht Hg).
  rewrite (normalize_audio_scaled ys peak_db peak (is_peak_np_max _ _ Hp) Hnz).
  unfold rbind, np_scale. f_equal. f_equal. apply map_ext_in. intros s Hin.
  set (g := Rpower 10 (peak_db / 20) / peak) in *.
  destruct (Req_dec_T s 0) as [-> | Hs].
  - rewrite Rmult_0_l. apply flush32_0.
  - apply flush32_keeps.
    rewrite Rabs_mult, (Rabs_right g) by lra.
    pose proof (Hprod s Hin Hs). lra.
Qed.
